(** * Lazy-tensor IR core: shapes, symbolic dimensions, nodes and outputs

    A shallow embedding of [torch/csrc/lazy/core/shape.cpp] and
    [torch/csrc/lazy/core/ir.h], followed by the properties of the
    embedding.

    Conventions.
    - A C++ class becomes a module holding a record [t] of its data
      members (named as in the source, trailing underscore included) and
      one function per member function.
    - [int64_t] and [size_t] values are integers in [Z]; every conversion
      and every unsigned multiplication writes its reduction modulo
      [2^64] out.
    - A raw pointer is the address it holds, with [0] for [nullptr]; a
      [std::shared_ptr] is modelled by the address of the object it
      shares.
    - Code that can stop abnormally returns an [outcome]. *)

From Stdlib Require Import ZArith List String Bool Lia DecimalString.
From coqutil Require Import Byte Word.LittleEndianList.
From stdpp Require Import base decidable option numbers list.
Import ListNotations.
Local Open Scope Z_scope.

(** ** Machine integers *)

Module CInt.

(** [2^64], the number of values of [size_t] and of [int64_t]. *)
Definition modulus : Z := 2 ^ 64.

(** The values an [int64_t] can hold. *)
Definition is_int64 (z : Z) : Prop := - 2 ^ 63 <= z < 2 ^ 63.

(** The values a [size_t] can hold. *)
Definition is_size_t (z : Z) : Prop := 0 <= z < modulus.

(** Integral conversion of a signed value to [size_t]. *)
Definition to_size_t (z : Z) : Z := z `mod` modulus.

(** Multiplication of two [size_t] values. *)
Definition size_t_mul (a b : Z) : Z := (a * b) `mod` modulus.

(** [sizeof(int64_t)]. *)
Definition sizeof_int64 : nat := 8%nat.

(** The object representation of one [int64_t]: eight bytes, least
    significant first, two's complement (the layout on x86-64 and
    AArch64, the targets of the library). *)
Definition int64_bytes (z : Z) : list byte := le_split sizeof_int64 z.

(** The bytes of a contiguous [int64_t] array, [data()] up to
    [size() * sizeof(int64_t)]. *)
Definition array_bytes (zs : list Z) : list byte :=
  flat_map int64_bytes zs.

End CInt.

(** ** Abnormal termination *)

(** How a call ends: normally with a value; in a failed
    [TORCH_INTERNAL_ASSERT] carrying its message; in an exception thrown
    by a checked accessor ([std::vector::at]); or in undefined behaviour,
    with the operation that caused it. *)
Inductive outcome (A : Type) : Type :=
| Ok (a : A)
| AssertFail (msg : string)
| OutOfRange
| Undefined (what : string).

Arguments Ok {A} a.
Arguments AssertFail {A} msg.
Arguments OutOfRange {A}.
Arguments Undefined {A} what.

(** Sequencing: the first abnormal end is the end of the whole call. *)
#[global] Instance outcome_ret : MRet outcome := fun A a => Ok a.

#[global] Instance outcome_bind : MBind outcome := fun A B k m =>
  match m with
  | Ok a => k a
  | AssertFail msg => AssertFail msg
  | OutOfRange => OutOfRange
  | Undefined what => Undefined what
  end.

(** The call returned, with whatever value. *)
Definition returns {A} (m : outcome A) : Prop := exists a, m = Ok a.

(** [TORCH_INTERNAL_ASSERT(cond, msg)]. *)
Definition TORCH_INTERNAL_ASSERT (cond : bool) (msg : string) : outcome unit :=
  if cond then Ok tt else AssertFail msg.

(** [v.at(i)] on a [std::vector]: bounds-checked. *)
Definition vec_at {A} (v : list A) (i : nat) : outcome A :=
  match v !! i with
  | Some a => Ok a
  | None => OutOfRange
  end.

(** [v[i]] read on a [std::vector]: unchecked. *)
Definition vec_get {A} (v : list A) (i : nat) : outcome A :=
  match v !! i with
  | Some a => Ok a
  | None => Undefined "vector subscript out of range"
  end.

(** [v[i] = x] on a [std::vector]: unchecked. *)
Definition vec_set {A} (v : list A) (i : nat) (x : A) : outcome (list A) :=
  match v !! i with
  | Some _ => Ok (<[i:=x]> v)
  | None => Undefined "vector subscript out of range"
  end.

(** [o.has_value()], also the conversion of a [c10::optional] to [bool]. *)
Definition has_value {A} (o : option A) : bool :=
  match o with
  | Some _ => true
  | None => false
  end.

(** [o->member] on a [c10::optional]: the access is only defined on an
    engaged optional. *)
Definition opt_arrow {A} (o : option A) : outcome A :=
  match o with
  | Some a => Ok a
  | None => Undefined "operator-> on a disengaged optional"
  end.

(** [for (int64_t i = 0; i < n; i++) body], threading the state the body
    updates; [for_from i k] runs the [k] iterations that start at [i]. *)
Fixpoint for_from {S : Type} (body : nat -> S -> outcome S)
    (i k : nat) (s : S) : outcome S :=
  match k with
  | O => Ok s
  | Datatypes.S k' => s' ← body i s; for_from body (Datatypes.S i) k' s'
  end.

Definition for_range {S : Type} (n : nat) (body : nat -> S -> outcome S)
    (s : S) : outcome S :=
  for_from body 0%nat n s.

(** ** Scalar types *)

(** [at::ScalarType] is declared in [c10/core/ScalarType.h]; the code
    here only stores, compares and hashes its values. *)
Inductive ScalarType : Set :=
| Byte | Char | Short | Int | Long | Half | Float | Double
| ComplexHalf | ComplexFloat | ComplexDouble | Bool
| QInt8 | QUInt8 | QInt32 | BFloat16 | QUInt4x2.

#[global] Instance ScalarType_eq_dec : EqDecision ScalarType.
Proof. solve_decision. Defined.

(** ** Hashing primitives *)

(** [hash_t] is a 128-bit unsigned integer. *)
Definition hash_t : Type := Z.

(** The primitives of [torch/csrc/lazy/core/hash.h] that [Shape::hash]
    calls. Their bodies are outside the files embedded here, so they are
    an interface. *)
Class HashPrims : Type := {
  (** [Hash(scalar_type)] *)
  Hash_ScalarType : ScalarType -> hash_t;
  (** [Hash(n)] on a [size_t] *)
  Hash_size_t : Z -> hash_t;
  (** [DataHash(data, size)] on the [size] bytes at [data] *)
  DataHash : list byte -> hash_t;
  (** [HashCombine(a, b)] *)
  HashCombine : hash_t -> hash_t -> hash_t
}.

(** The string helpers that [Shape::to_string] calls, from
    [c10/core/ScalarType.h] and [c10/util/StringUtil.h]; an interface,
    as their bodies are outside the files embedded here. *)
Class StrPrims : Type := {
  (** [toString(scalar_type)] *)
  toString_ScalarType : ScalarType -> string;
  (** [c10::Join(delimiter, sizes)] *)
  Join : string -> list Z -> string
}.

(** ** Shape ([shape.cpp]) *)

Module Shape.

Record t : Type := mk {
  scalar_type_ : ScalarType;
  sizes_ : list Z;
  is_symbolic_ : option (list bool)
}.

(** [Shape::Shape(scalar_type, sizes)]: both members are copied from the
    arguments as they are; [is_symbolic_] is not in the initialiser list
    and keeps its default, [c10::nullopt]. *)
Definition Shape (scalar_type : ScalarType) (sizes : list Z) : t :=
  {| scalar_type_ := scalar_type; sizes_ := sizes; is_symbolic_ := None |}.

Definition scalar_type (s : t) : ScalarType := scalar_type_ s.
Definition sizes (s : t) : list Z := sizes_ s.
Definition is_symbolic (s : t) : option (list bool) := is_symbolic_ s.

(** [Shape::operator==]. *)
Definition eqb (this other : t) : bool :=
  bool_decide (scalar_type_ this = scalar_type_ other)
  && bool_decide (sizes_ this = sizes_ other).

(** [Shape::numel]: [elts] is a [size_t]; each [size] is converted to
    [size_t] for the multiplication, whose result wraps. *)
Definition numel (this : t) : Z :=
  fold_left (fun elts size => CInt.size_t_mul elts (CInt.to_size_t size))
            (sizes_ this) 1.

(** [Shape::hash]. *)
Definition hash `{HashPrims} (this : t) (bakeInSizes : bool) : hash_t :=
  if bakeInSizes then
    HashCombine
      (Hash_ScalarType (scalar_type_ this))
      (DataHash (CInt.array_bytes (sizes_ this)))
  else
    HashCombine
      (Hash_ScalarType (scalar_type_ this))
      (Hash_size_t (Z.of_nat (length (sizes_ this)))).

(** The member assignment [copy.is_symbolic_ = symbolic_dims]. *)
Definition set_is_symbolic_ (s : t) (symbolic_dims : option (list bool)) : t :=
  {| scalar_type_ := scalar_type_ s;
     sizes_ := sizes_ s;
     is_symbolic_ := symbolic_dims |}.

(** A call [s.with_symbolic_dims(d)] with the two objects it involves:
    the receiver [*this] and the local [copy]. Gives the receiver after
    the call and the object returned. *)
Definition call_with_symbolic_dims (this : t)
    (symbolic_dims : option (list bool)) : t * t :=
  let copy := this in
  let copy := set_is_symbolic_ copy symbolic_dims in
  (this, copy).

(** [Shape::with_symbolic_dims], the value returned. *)
Definition with_symbolic_dims (this : t)
    (symbolic_dims : option (list bool)) : t :=
  snd (call_with_symbolic_dims this symbolic_dims).

(** The relation between [is_symbolic_] and [sizes_] that
    [get_symbolic_shape] asserts. *)
Definition consistent (s : t) : Prop :=
  match is_symbolic_ s with
  | Some dims => length dims = length (sizes_ s)
  | None => True
  end.

(** [Shape::to_string]: [c10::str] appends its arguments. *)
Definition to_string `{StrPrims} (this : t) : string :=
  (toString_ScalarType (scalar_type_ this) ++ "["
   ++ Join "," (sizes_ this) ++ "]")%string.

End Shape.

(** ** The symbolic-shape switch ([shape.cpp]) *)

(** What [symbolicShapeEnabled] reads and writes of the process: the
    environment variable [LTC_ENABLE_SYMBOLIC_SHAPES] (its value, when
    set), the flag [FLAGS_ltc_enable_symbolic_shapes] (defined with
    default [false]), and the function's local [static bool enabled],
    which has no value before the first call. *)
Record Process : Type := mkProcess {
  env_LTC_ENABLE_SYMBOLIC_SHAPES : option string;
  FLAGS_ltc_enable_symbolic_shapes : bool;
  static_enabled : option bool
}.

(** A process in which [symbolicShapeEnabled] has not run yet. *)
Definition fresh (env : option string) (flag : bool) : Process :=
  {| env_LTC_ENABLE_SYMBOLIC_SHAPES := env;
     FLAGS_ltc_enable_symbolic_shapes := flag;
     static_enabled := None |}.

(** [setenv]/[unsetenv] on the variable. *)
Definition set_env (env : option string) (p : Process) : Process :=
  {| env_LTC_ENABLE_SYMBOLIC_SHAPES := env;
     FLAGS_ltc_enable_symbolic_shapes := FLAGS_ltc_enable_symbolic_shapes p;
     static_enabled := static_enabled p |}.

(** An assignment to [FLAGS_ltc_enable_symbolic_shapes]. *)
Definition set_flag (flag : bool) (p : Process) : Process :=
  {| env_LTC_ENABLE_SYMBOLIC_SHAPES := env_LTC_ENABLE_SYMBOLIC_SHAPES p;
     FLAGS_ltc_enable_symbolic_shapes := flag;
     static_enabled := static_enabled p |}.

(** [std::getenv("LTC_ENABLE_SYMBOLIC_SHAPES") != nullptr]. *)
Definition getenv_is_set (p : Process) : bool :=
  match env_LTC_ENABLE_SYMBOLIC_SHAPES p with
  | Some _ => true
  | None => false
  end.

(** [symbolicShapeEnabled]: the initialiser of the local static runs on
    the first call only; the flag is read on every call. Returns the
    result and the process after the call. *)
Definition symbolicShapeEnabled (p : Process) : bool * Process :=
  let enabled :=
    match static_enabled p with
    | Some e => e
    | None => getenv_is_set p
    end in
  (enabled || FLAGS_ltc_enable_symbolic_shapes p,
   {| env_LTC_ENABLE_SYMBOLIC_SHAPES := env_LTC_ENABLE_SYMBOLIC_SHAPES p;
      FLAGS_ltc_enable_symbolic_shapes := FLAGS_ltc_enable_symbolic_shapes p;
      static_enabled := Some enabled |}).

(** ** Symbolic shapes passed to the inference engine ([shape.cpp]) *)

(** [c10::SymbolicShape] as the three constructors used here build it:
    no rank ([SymbolicShape()]), or one entry per dimension, a static
    size or an unknown ([c10::nullopt]). *)
Definition SymbolicShape : Type := option (list (option Z)).

(** [c10::SymbolicShape()]. *)
Definition SymbolicShape_unranked : SymbolicShape := None.

(** [c10::SymbolicShape(sizes)] from concrete sizes. *)
Definition SymbolicShape_of_sizes (sizes : list Z) : SymbolicShape :=
  Some (map Some sizes).

(** [c10::SymbolicShape(dims)] from optional sizes. *)
Definition SymbolicShape_of_dims (dims : list (option Z)) : SymbolicShape :=
  Some dims.

(** Modelled from the spec: [c10::SymbolicShape::symbolicDims] is defined
    outside the embedded files. A result is either fully concrete (no
    breakdown) or a per-dimension breakdown, [true] at the dimensions
    that are symbolic. *)
Definition symbolicDims (ss : SymbolicShape) : option (list bool) :=
  match ss with
  | None => None
  | Some dims => Some (map (fun d => match d with None => true | Some _ => false end) dims)
  end.

(** A lazy tensor, as far as [get_symbolic_shape] looks into it:
    [GetIrValue()->shape()]. *)
Record LazyTensor : Type := mkLazyTensor {
  ir_value_shape : Shape.t
}.

(** An [at::Tensor]: its [sizes()], and the lazy tensor behind it when
    there is one. *)
Record Tensor : Type := mkTensor {
  tensor_sizes : list Z;
  ltc : option LazyTensor
}.

(** [TryGetLtcTensor]: null for a tensor that is not lazy. *)
Definition TryGetLtcTensor (tensor : Tensor) : option LazyTensor := ltc tensor.

(** One iteration of the loop of [get_symbolic_shape]. *)
Definition get_symbolic_shape_step (sizes : list Z) (is_symbolic : list bool)
    (i : nat) (symbolic_dims : list (option Z)) : outcome (list (option Z)) :=
  b ← vec_at is_symbolic i;
  if b : bool then
    Ok (symbolic_dims ++ [None])
  else
    sz ← vec_at sizes i;
    Ok (symbolic_dims ++ [Some sz]).

(** [get_symbolic_shape]. *)
Definition get_symbolic_shape (tensor : Tensor) : outcome SymbolicShape :=
  match TryGetLtcTensor tensor with
  | None =>
      Ok (SymbolicShape_of_sizes (tensor_sizes tensor))
  | Some ltc_tensor =>
      let input_shape := ir_value_shape ltc_tensor in
      match Shape.is_symbolic input_shape with
      | None => Ok SymbolicShape_unranked
      | Some is_symbolic =>
          let sizes := Shape.sizes input_shape in
          _ ← TORCH_INTERNAL_ASSERT
                (Nat.eqb (length sizes) (length is_symbolic))
                "Dims of two values are not consistent";
          symbolic_dims ←
            for_range (length sizes)
              (get_symbolic_shape_step sizes is_symbolic) [];
          Ok (SymbolicShape_of_dims symbolic_dims)
      end
  end.

(** [c10::IValue], by the cases the argument loop tells apart. *)
Inductive IValue : Type :=
| IV_TensorList (tensors : list Tensor)
| IV_Tensor (tensor : Tensor)
| IV_Other (repr : string).

(** [jit::SSAInput], a variant of an [IValue] and a [SymbolicShape]. *)
Inductive SSAInput : Type :=
| SSA_IValue (v : IValue)
| SSA_SymbolicShape (ss : SymbolicShape).

(** The part of the JIT that [applySymbolicShapesOnLT] calls: the schema
    found for a literal (the lookup can fail), and the shape-inference
    engine, whose result is optional. *)
Class JitApi : Type := {
  FunctionSchema : Type;
  getOperatorForLiteral_schema : string -> outcome FunctionSchema;
  calculateSymbolicShapesOnOp :
    FunctionSchema -> list SSAInput -> option (list SymbolicShape)
}.

(** A range-based [for] over a container, threading the state. *)
Fixpoint for_each {A S : Type} (body : A -> S -> outcome S)
    (l : list A) (s : S) : outcome S :=
  match l with
  | [] => Ok s
  | a :: l' => s' ← body a s; for_each body l' s'
  end.

(** The body of the loop over [args]. *)
Definition convert_arg (arg : IValue) (converted_args : list SSAInput)
    : outcome (list SSAInput) :=
  match arg with
  | IV_TensorList tensor_list =>
      for_each
        (fun tensor acc =>
           ss ← get_symbolic_shape tensor;
           Ok (acc ++ [SSA_SymbolicShape ss]))
        tensor_list converted_args
  | IV_Tensor tensor =>
      ss ← get_symbolic_shape tensor;
      Ok (converted_args ++ [SSA_SymbolicShape ss])
  | IV_Other _ =>
      Ok (converted_args ++ [SSA_IValue arg])
  end.

Definition convert_args (args : list IValue) : outcome (list SSAInput) :=
  for_each convert_arg args [].

(** The body of the loop of the branch taken when [res_symbolic] is
    disengaged. *)
Definition clear_symbolic_step (i : nat) (result_shapes : list Shape.t)
    : outcome (list Shape.t) :=
  s ← vec_get result_shapes i;
  vec_set result_shapes i (Shape.with_symbolic_dims s None).

(** The body of the loop of the branch taken when [res_symbolic] is
    engaged. *)
Definition apply_symbolic_step (res : list SymbolicShape) (i : nat)
    (result_shapes : list Shape.t) : outcome (list Shape.t) :=
  ss ← vec_at res i;
  match symbolicDims ss with
  | Some sym_dims =>
      s ← vec_get result_shapes i;
      vec_set result_shapes i (Shape.with_symbolic_dims s (Some sym_dims))
  | None => Ok result_shapes
  end.

(** [applySymbolicShapesOnLT]: the vector [result_shapes] is passed by
    reference; the value returned is its content when the call returns.
    In the branch for a disengaged [res_symbolic] the loop bound is
    [res_symbolic->size()], evaluated before the first iteration. *)
Definition applySymbolicShapesOnLT `{JitApi} (schema_str : string)
    (args : list IValue) (result_shapes : list Shape.t)
    : outcome (list Shape.t) :=
  schema ← getOperatorForLiteral_schema schema_str;
  converted_args ← convert_args args;
  let res_symbolic := calculateSymbolicShapesOnOp schema converted_args in
  if negb (has_value res_symbolic) then
    res ← opt_arrow res_symbolic;
    for_range (length res) clear_symbolic_step result_shapes
  else
    res ← opt_arrow res_symbolic;
    _ ← TORCH_INTERNAL_ASSERT
          (Nat.eqb (length res) (length result_shapes))
          "Result shape size is not consistent";
    for_range (length res) (apply_symbolic_step res) result_shapes.

(** ** Operation kinds, outputs, nodes and values ([ir.h]) *)

(** [kHashSeed]: the literal [0x5a2d296e9] cast to [uint32_t]. *)
Definition kHashSeed : hash_t := 0x5a2d296e9 `mod` 2 ^ 32.

Module OpKind.

(** [c10::Symbol] is an interned identifier, an unsigned 32-bit number. *)
Record t : Type := mk {
  op : Z
}.

(** [OpKind::operator==]. *)
Definition eqb (this rhs : t) : bool := Z.eqb (op this) (op rhs).

(** [OpKind::operator!=]. *)
Definition neqb (this rhs : t) : bool := negb (eqb this rhs).

(** [OpKind::operator<]. *)
Definition ltb (this rhs : t) : bool := Z.ltb (op this) (op rhs).

End OpKind.

Module Output.

(** [node] is a [const Node*], not owning; [index] a [size_t]. *)
Record t : Type := mk {
  node : Z;
  index : Z
}.

(** [Output() = default], from the member initialisers. *)
Definition default : t := {| node := 0; index := 0 |}.

(** [Output(node, index = 0)]. *)
Definition Output (node : Z) (index : Z) : t :=
  {| node := node; index := index |}.

(** [Output(node)], the index defaulted. *)
Definition Output1 (node : Z) : t := Output node 0.

(** [Output::operator==]. *)
Definition eqb (this rhs : t) : bool :=
  Z.eqb (node this) (node rhs) && Z.eqb (index this) (index rhs).

(** [Output::operator!=]. *)
Definition neqb (this rhs : t) : bool := negb (eqb this rhs).

End Output.

Module Node.

Section WithMetaData.

(** [MetaData] is declared in [ir_metadata.h]; a node only stores it. *)
Context {MetaData : Type}.

(** The data members of [Node]. [user_metadata_] is a
    [std::shared_ptr<UserMetaData>] and [operands_] a vector of
    [std::shared_ptr<Node>]. *)
Record t : Type := mk {
  op_ : OpKind.t;
  num_outputs_ : Z;
  node_hash_ : hash_t;
  dag_hash_without_sizes_ : hash_t;
  dag_hash_with_sizes_ : hash_t;
  metadata_ : MetaData;
  user_metadata_ : Z;
  shapes_ : list Shape.t;
  operands_ : list Z;
  operands_as_outputs_ : list Output.t
}.

Definition op (this : t) : OpKind.t := op_ this.
Definition num_outputs (this : t) : Z := num_outputs_ this.
Definition node_hash (this : t) : hash_t := node_hash_ this.

(** [Node::hash]. The static member [enableDynamicShape] is declared in
    the header and defined elsewhere; [enableDynamicShape] here is the
    value its call returns, the state of the dynamic-shape switch. *)
Definition hash (enableDynamicShape : bool) (this : t) : hash_t :=
  if enableDynamicShape then dag_hash_without_sizes_ this
  else dag_hash_with_sizes_ this.

Definition hash_without_sizes (this : t) : hash_t :=
  dag_hash_without_sizes_ this.

Definition hash_with_sizes (this : t) : hash_t := dag_hash_with_sizes_ this.

Definition metadata (this : t) : MetaData := metadata_ this.

(** [user_metadata_.get()]. *)
Definition user_metadata (this : t) : Z := user_metadata_ this.

(** The member assignment [user_metadata_ = p]. *)
Definition set_user_metadata_ (this : t) (p : Z) : t :=
  {| op_ := op_ this;
     num_outputs_ := num_outputs_ this;
     node_hash_ := node_hash_ this;
     dag_hash_without_sizes_ := dag_hash_without_sizes_ this;
     dag_hash_with_sizes_ := dag_hash_with_sizes_ this;
     metadata_ := metadata_ this;
     user_metadata_ := p;
     shapes_ := shapes_ this;
     operands_ := operands_ this;
     operands_as_outputs_ := operands_as_outputs_ this |}.

(** [Node::SetUserMetadata]: [std::swap] of the member and the argument,
    then the argument is returned. Gives the node after the call and the
    pointer returned. *)
Definition SetUserMetadata (this : t) (user_meta : Z) : t * Z :=
  let tmp := user_metadata_ this in
  let this := set_user_metadata_ this user_meta in
  let user_meta := tmp in
  (this, user_meta).

End WithMetaData.

Arguments t : clear implicits.

End Node.

Module Value.

(** [node] is a [NodePtr], owning; [index] a [size_t]. *)
Record t : Type := mk {
  node : Z;
  index : Z
}.

(** [Value::operator bool]. *)
Definition to_bool (this : t) : bool := negb (Z.eqb (node this) 0).

(** [Value::operator Output]. *)
Definition to_Output (this : t) : Output.t :=
  Output.Output (node this) (index this).

End Value.

(** ** Notions used to state the properties *)

(** The product of the entries of a list, [1] for the empty list. *)
Definition product (l : list Z) : Z := fold_right Z.mul 1 l.

(** The examples of the specification. *)
Definition float32_3_4_0 : Shape.t := Shape.Shape Float [3; 4; 0].
Definition float32_scalar : Shape.t := Shape.Shape Float [].

(** The entries [get_symbolic_shape] builds for a lazy tensor: unknown
    at the symbolic dimensions, the size elsewhere. *)
Definition masked_sizes (is_symbolic : list bool) (sizes : list Z)
    : list (option Z) :=
  zip_with (fun (b : bool) (sz : Z) => if b then None else Some sz)
           is_symbolic sizes.

(** A tensor whose lazy shape, if it has one, has symbolic-dims metadata
    of the length of its sizes. *)
Definition tensor_consistent (tensor : Tensor) : Prop :=
  match TryGetLtcTensor tensor with
  | Some ltc_tensor => Shape.consistent (ir_value_shape ltc_tensor)
  | None => True
  end.

(** Hash primitives to evaluate [Shape::hash] with. *)
Definition sample_HashPrims : HashPrims :=
  {| Hash_ScalarType := fun st => if bool_decide (st = Float) then 6 else 0;
     Hash_size_t := fun n => n;
     DataHash := fun bytes => le_combine bytes;
     HashCombine := fun a b => 31 * a + b |}.

(** A JIT that knows every literal and whose inference engine has no
    result for any operator. *)
Definition no_result_JitApi : JitApi :=
  {| FunctionSchema := string;
     getOperatorForLiteral_schema := fun schema_str => Ok schema_str;
     calculateSymbolicShapesOnOp := fun _ _ => None |}.

(** The inputs of the examples below. *)
Definition float32_2_3 : Shape.t := Shape.Shape Float [2; 3].
Definition float32_2_4 : Shape.t := Shape.Shape Float [2; 4].
Definition concrete_2_3 : Tensor := {| tensor_sizes := [2; 3]; ltc := None |}.
Definition relu_schema : string := "aten::relu(Tensor self) -> Tensor".

(** *** Notions for the properties beyond the claims *)

(** What happens to a process between and including calls of
    [symbolicShapeEnabled]. *)
Inductive action : Type :=
| SetEnv (env : option string)
| SetFlag (flag : bool)
| Call.

(** Runs the actions in order; gives the results of the calls, in order,
    and the process at the end. *)
Fixpoint run (actions : list action) (p : Process) : list bool * Process :=
  match actions with
  | [] => ([], p)
  | SetEnv env :: rest => run rest (set_env env p)
  | SetFlag flag :: rest => run rest (set_flag flag p)
  | Call :: rest =>
      let '(r, p') := symbolicShapeEnabled p in
      let '(rs, p'') := run rest p' in
      (r :: rs, p'')
  end.

(** [tensor_consistent], decided. *)
Definition tensor_consistentb (tensor : Tensor) : bool :=
  match TryGetLtcTensor tensor with
  | Some ltc_tensor =>
      match Shape.is_symbolic (ir_value_shape ltc_tensor) with
      | Some dims =>
          Nat.eqb (length dims)
                  (length (Shape.sizes (ir_value_shape ltc_tensor)))
      | None => true
      end
  | None => true
  end.

(** The symbolic shape that stands for a tensor: all sizes static for a
    tensor that is not lazy, no rank for a lazy tensor without metadata,
    and the sizes with the symbolic ones unknown otherwise. *)
Definition symbolic_shape_of (tensor : Tensor) : SymbolicShape :=
  match TryGetLtcTensor tensor with
  | None => SymbolicShape_of_sizes (tensor_sizes tensor)
  | Some ltc_tensor =>
      match Shape.is_symbolic (ir_value_shape ltc_tensor) with
      | None => SymbolicShape_unranked
      | Some dims =>
          SymbolicShape_of_dims
            (masked_sizes dims (Shape.sizes (ir_value_shape ltc_tensor)))
      end
  end.

(** The tensors an argument holds. *)
Definition arg_tensors (arg : IValue) : list Tensor :=
  match arg with
  | IV_TensorList tensors => tensors
  | IV_Tensor tensor => [tensor]
  | IV_Other _ => []
  end.

(** The entries an argument stands for in the converted list: one per
    tensor of a tensor list, one for a tensor, the value itself
    otherwise. *)
Definition converted_of (arg : IValue) : list SSAInput :=
  match arg with
  | IV_TensorList tensors =>
      map (fun tensor => SSA_SymbolicShape (symbolic_shape_of tensor)) tensors
  | IV_Tensor tensor => [SSA_SymbolicShape (symbolic_shape_of tensor)]
  | IV_Other _ => [SSA_IValue arg]
  end.

(** A result shape after the inference result for it is applied. *)
Definition refined (s : Shape.t) (ss : SymbolicShape) : Shape.t :=
  match symbolicDims ss with
  | Some sym_dims => Shape.with_symbolic_dims s (Some sym_dims)
  | None => s
  end.

(** String helpers to evaluate [Shape::to_string] with. *)
Definition sample_StrPrims : StrPrims :=
  {| toString_ScalarType :=
       fun st => if bool_decide (st = Float) then "Float"%string
                 else "Other"%string;
     Join := fun delimiter sizes =>
       String.concat delimiter
         (map (fun size => NilZero.string_of_int (Z.to_int size)) sizes) |}.

(** A JIT that knows every literal and whose inference engine returns
    the given result for any operator. *)
Definition fixed_result_JitApi (res : option (list SymbolicShape)) : JitApi :=
  {| FunctionSchema := string;
     getOperatorForLiteral_schema := fun schema_str => Ok schema_str;
     calculateSymbolicShapesOnOp := fun _ _ => res |}.

(** More inputs for the examples. *)
Definition lazy_2_3 (dims : list bool) : Tensor :=
  {| tensor_sizes := [2; 3];
     ltc := Some {| ir_value_shape :=
                      Shape.with_symbolic_dims float32_2_3 (Some dims) |} |}.

(** * Properties *)

(** ** Machine arithmetic *)

Lemma modulus_pos : 0 < CInt.modulus.
Proof. reflexivity. Qed.

Lemma size_t_mul_to_size_t (a x : Z) :
  CInt.size_t_mul (a `mod` CInt.modulus) (CInt.to_size_t x)
  = (a * x) `mod` CInt.modulus.
Proof.
  unfold CInt.size_t_mul, CInt.to_size_t.
  symmetry. apply Z.mul_mod. discriminate.
Qed.

Lemma fold_mul_product (l : list Z) (a : Z) :
  fold_left Z.mul l a = a * product l.
Proof.
  revert a. induction l as [|x l IH]; intros a; simpl.
  - lia.
  - rewrite IH. lia.
Qed.

(** The loop of [numel], started from any accumulator. *)
Lemma numel_loop (l : list Z) (a : Z) :
  fold_left (fun elts size => CInt.size_t_mul elts (CInt.to_size_t size))
            l (a `mod` CInt.modulus)
  = (a * product l) `mod` CInt.modulus.
Proof.
  revert a. induction l as [|x l IH]; intros a; simpl.
  - f_equal. lia.
  - rewrite size_t_mul_to_size_t, IH. f_equal. lia.
Qed.

Lemma numel_wraps (s : Shape.t) :
  Shape.numel s = product (Shape.sizes s) `mod` CInt.modulus.
Proof.
  unfold Shape.numel, Shape.sizes.
  change 1 with (1 `mod` CInt.modulus) at 1.
  rewrite numel_loop. f_equal. lia.
Qed.

Lemma product_map_to_size_t (l : list Z) :
  product (map CInt.to_size_t l) `mod` CInt.modulus
  = product l `mod` CInt.modulus.
Proof.
  induction l as [|x l IH]; simpl; [reflexivity|].
  rewrite Z.mul_mod by discriminate.
  rewrite IH. unfold CInt.to_size_t.
  rewrite Z.mod_mod by discriminate.
  symmetry. apply Z.mul_mod. discriminate.
Qed.

(** ** C7: [numel] *)

(** C7, as stated, at a shape whose element count does not fit [size_t]:
    [numel()] of [float32[2^32, 2^32]] is [0], the product of its sizes
    is [2^64]. *)
Lemma numel_not_product_on_overflow :
  Shape.numel (Shape.Shape Float [2 ^ 32; 2 ^ 32]) = 0
  /\ product (Shape.sizes (Shape.Shape Float [2 ^ 32; 2 ^ 32])) = 2 ^ 64
  /\ Shape.numel (Shape.Shape Float [2 ^ 32; 2 ^ 32])
     <> product (Shape.sizes (Shape.Shape Float [2 ^ 32; 2 ^ 32])).
Proof. repeat split. discriminate. Qed.

(** C7, amended: for every Shape, [numel()] is the product of all entries
    of [sizes] reduced modulo [2^64], the empty product being [1]; it is
    the product itself whenever that product lies in [0, 2^64).
    [numel()] of [float32[3,4,0]] is [0], and of [float32[]] is [1]. *)
Theorem numel_product_mod :
  (forall s : Shape.t,
      Shape.numel s = product (Shape.sizes s) `mod` 2 ^ 64)
  /\ (forall s : Shape.t,
         0 <= product (Shape.sizes s) < 2 ^ 64 ->
         Shape.numel s = product (Shape.sizes s))
  /\ product [] = 1
  /\ Shape.numel float32_3_4_0 = 0
  /\ Shape.numel float32_scalar = 1.
Proof.
  split; [|split; [|repeat split]].
  - intros s. apply numel_wraps.
  - intros s Hs. rewrite numel_wraps. apply Z.mod_small. exact Hs.
Qed.

(** The amended C7 at [float32[2,3]], whose product is in range. *)
Lemma numel_product_mod_witness :
  Shape.numel (Shape.Shape Float [2; 3]) = 6.
Proof.
  destruct numel_product_mod as (_ & Hexact & _).
  rewrite (Hexact (Shape.Shape Float [2; 3])).
  - reflexivity.
  - simpl. lia.
Defined.

(** ** C10: negative sizes *)

(** C10, as stated, at two shapes with one negative dimension next to
    another dimension: [numel()] of [float32[-6148914691236517205, 3]]
    is [1] and [numel()] of [float32[-1, 0]] is [0], neither a huge
    value. *)
Lemma numel_negative_not_huge :
  Forall CInt.is_int64 [-6148914691236517205; 3]
  /\ Shape.numel (Shape.Shape Float [-6148914691236517205; 3]) = 1
  /\ Forall CInt.is_int64 [-1; 0]
  /\ Shape.numel (Shape.Shape Float [-1; 0]) = 0
  /\ ~ 2 ^ 63 <= Shape.numel (Shape.Shape Float [-6148914691236517205; 3]).
Proof.
  split; [repeat constructor; unfold CInt.is_int64; lia|].
  split; [reflexivity|].
  split; [repeat constructor; unfold CInt.is_int64; lia|].
  split; [reflexivity|].
  intros Hhuge. vm_compute in Hhuge. apply Hhuge. reflexivity.
Qed.

(** C10, amended: the constructor stores any sequence of [int64_t] sizes
    as given, negative ones included; [numel()] of the constructed shape
    does not fail, it is a [size_t] value, the product of the sizes
    converted to [size_t], taken modulo [2^64]; for a shape whose only
    dimension is [d < 0] it is [2^64 + d], at least [2^63]. *)
Theorem numel_negative_sizes (st : ScalarType) (sizes : list Z)
    (Hsizes : Forall CInt.is_int64 sizes) :
  Shape.sizes (Shape.Shape st sizes) = sizes
  /\ Shape.numel (Shape.Shape st sizes)
     = product (map CInt.to_size_t sizes) `mod` 2 ^ 64
  /\ CInt.is_size_t (Shape.numel (Shape.Shape st sizes))
  /\ (forall d, sizes = [d] -> d < 0 ->
        Shape.numel (Shape.Shape st sizes) = 2 ^ 64 + d
        /\ 2 ^ 63 <= Shape.numel (Shape.Shape st sizes)).
Proof.
  split; [reflexivity|].
  split; [rewrite numel_wraps; symmetry; apply product_map_to_size_t|].
  split.
  - rewrite numel_wraps. apply Z.mod_pos_bound. reflexivity.
  - intros d -> Hneg.
    apply Forall_inv in Hsizes. unfold CInt.is_int64 in Hsizes.
    assert (Hn : Shape.numel (Shape.Shape st [d]) = 2 ^ 64 + d).
    { rewrite numel_wraps. simpl.
      replace (d * 1) with d by lia.
      unfold CInt.modulus.
      symmetry. apply (Z.mod_unique_pos _ _ (-1)); lia. }
    rewrite Hn. lia.
Qed.

(** C10 at [float32[-1]], whose [numel()] is [2^64 - 1]. *)
Lemma numel_negative_sizes_witness :
  Forall CInt.is_int64 [-1]
  /\ Shape.numel (Shape.Shape Float [-1]) = 2 ^ 64 - 1.
Proof.
  assert (H : Forall CInt.is_int64 [-1]).
  { repeat constructor; unfold CInt.is_int64; lia. }
  split; [exact H|].
  destruct (numel_negative_sizes Float [-1] H) as (_ & _ & _ & Hd).
  destruct (Hd (-1) eq_refl) as [Hn _]; [lia|].
  rewrite Hn. reflexivity.
Defined.

(** ** C6: [with_symbolic_dims] *)

Lemma Shape_eqb_eq (a b : Shape.t) :
  Shape.eqb a b = true
  <-> Shape.scalar_type a = Shape.scalar_type b
      /\ Shape.sizes a = Shape.sizes b.
Proof.
  unfold Shape.eqb, Shape.scalar_type, Shape.sizes.
  rewrite andb_true_iff, !bool_decide_eq_true. reflexivity.
Qed.

(** C6: for every Shape [s] and optional boolean sequence [d], the Shape
    returned by [s.with_symbolic_dims(d)] has the sizes and the scalar
    type of [s], compares equal to [s] under [operator==], and has
    [is_symbolic] equal to [d]; with [d] absent, [is_symbolic] of the
    result is absent; the receiver after the call is [s]. *)
Theorem with_symbolic_dims_copy (s : Shape.t) (d : option (list bool)) :
  Shape.sizes (Shape.with_symbolic_dims s d) = Shape.sizes s
  /\ Shape.scalar_type (Shape.with_symbolic_dims s d) = Shape.scalar_type s
  /\ Shape.eqb (Shape.with_symbolic_dims s d) s = true
  /\ Shape.is_symbolic (Shape.with_symbolic_dims s d) = d
  /\ Shape.is_symbolic (Shape.with_symbolic_dims s None) = None
  /\ fst (Shape.call_with_symbolic_dims s d) = s.
Proof.
  repeat split.
  apply Shape_eqb_eq. split; reflexivity.
Qed.

(** ** C8: equality of outputs *)

Lemma Output_eqb_eq (a b : Output.t) :
  Output.eqb a b = true
  <-> Output.node a = Output.node b /\ Output.index a = Output.index b.
Proof.
  unfold Output.eqb. rewrite andb_true_iff, !Z.eqb_eq. reflexivity.
Qed.

(** C8: two Outputs are equal under [operator==] iff they hold the same
    node pointer and the same index, and [operator!=] is its negation;
    for distinct nodes [nodeA] and [nodeB], [Output(nodeA,0)] differs
    from [Output(nodeB,0)], and [Output(nodeA,0)] equals
    [Output(nodeA,0)]. *)
Theorem Output_eq_identity (a b : Output.t) (nodeA nodeB : Z)
    (Hdistinct : nodeA <> nodeB) :
  (Output.eqb a b = true
   <-> Output.node a = Output.node b /\ Output.index a = Output.index b)
  /\ Output.neqb a b = negb (Output.eqb a b)
  /\ Output.eqb (Output.Output nodeA 0) (Output.Output nodeB 0) = false
  /\ Output.neqb (Output.Output nodeA 0) (Output.Output nodeB 0) = true
  /\ Output.eqb (Output.Output nodeA 0) (Output.Output nodeA 0) = true.
Proof.
  split; [apply Output_eqb_eq|].
  split; [reflexivity|].
  assert (Hne : Output.eqb (Output.Output nodeA 0) (Output.Output nodeB 0)
                = false).
  { apply not_true_is_false. rewrite Output_eqb_eq. simpl.
    intros [Heq _]. contradiction. }
  split; [exact Hne|].
  split.
  - unfold Output.neqb. rewrite Hne. reflexivity.
  - apply Output_eqb_eq. split; reflexivity.
Qed.

(** C8 at two nodes at addresses [4096] and [8192]. *)
Lemma Output_eq_identity_witness :
  Output.eqb (Output.Output 4096 0) (Output.Output 8192 0) = false
  /\ Output.eqb (Output.Output 4096 0) (Output.Output 4096 0) = true.
Proof.
  assert (Hd : (4096 : Z) <> 8192) by lia.
  destruct (Output_eq_identity Output.default Output.default 4096 8192 Hd)
    as (_ & _ & Hne & _ & Heq).
  split; [exact Hne | exact Heq].
Defined.

(** ** C9: the user-metadata slot *)

(** C9: [n.SetUserMetadata(m)] stores [m] as the node's user metadata and
    returns the pointer stored before (null when none was stored); the
    operation identity, the number of outputs, the node hash, both
    subgraph hashes and the hash selected by the switch, the IR metadata,
    the shapes and the operands of the node are as before the call. *)
Theorem SetUserMetadata_frame {MetaData : Type} (n : Node.t MetaData)
    (m : Z) :
  let n' := fst (Node.SetUserMetadata n m) in
  let previous := snd (Node.SetUserMetadata n m) in
  Node.user_metadata n' = m
  /\ previous = Node.user_metadata n
  /\ Node.op n' = Node.op n
  /\ Node.num_outputs n' = Node.num_outputs n
  /\ Node.node_hash n' = Node.node_hash n
  /\ Node.hash_with_sizes n' = Node.hash_with_sizes n
  /\ Node.hash_without_sizes n' = Node.hash_without_sizes n
  /\ (forall dyn, Node.hash dyn n' = Node.hash dyn n)
  /\ Node.metadata n' = Node.metadata n
  /\ Node.shapes_ n' = Node.shapes_ n
  /\ Node.operands_ n' = Node.operands_ n
  /\ Node.operands_as_outputs_ n' = Node.operands_as_outputs_ n.
Proof.
  cbv zeta. repeat split.
Qed.

(** ** C2: the hash a node reports *)

(** C2: for every Node [n], with the dynamic-shape switch off [n.hash()]
    is [n.hash_with_sizes()], and with it on [n.hash()] is
    [n.hash_without_sizes()]. *)
Theorem Node_hash_selects {MetaData : Type} (n : Node.t MetaData) :
  Node.hash false n = Node.hash_with_sizes n
  /\ Node.hash true n = Node.hash_without_sizes n.
Proof. split; reflexivity. Qed.

(** ** C3: the two hashes of a shape *)

(** Two [int64_t] values with the same eight bytes are the same. *)
Lemma int64_bytes_inj (a b : Z) :
  CInt.is_int64 a -> CInt.is_int64 b ->
  CInt.int64_bytes a = CInt.int64_bytes b -> a = b.
Proof.
  unfold CInt.is_int64, CInt.int64_bytes, CInt.sizeof_int64.
  intros Ha Hb Hbytes.
  apply (f_equal le_combine) in Hbytes.
  rewrite !le_combine_split in Hbytes.
  change (Z.of_nat 8 * 8) with 64 in Hbytes.
  pose proof (Z.div_mod a (2 ^ 64) ltac:(discriminate)) as Da.
  pose proof (Z.div_mod b (2 ^ 64) ltac:(discriminate)) as Db.
  pose proof (Z.mod_pos_bound a (2 ^ 64) ltac:(reflexivity)) as Ba.
  rewrite Hbytes in Da.
  assert (Hq : a - b = 2 ^ 64 * (a / 2 ^ 64 - b / 2 ^ 64)) by lia.
  assert (Hz : a / 2 ^ 64 - b / 2 ^ 64 = 0) by lia.
  lia.
Qed.

Lemma int64_bytes_length (a : Z) :
  length (CInt.int64_bytes a) = CInt.sizeof_int64.
Proof. apply length_le_split. Qed.

(** The size argument of [DataHash] in [Shape::hash]:
    [sizes_.size() * sizeof(int64_t)]. *)
Lemma array_bytes_length (l : list Z) :
  length (CInt.array_bytes l) = (length l * CInt.sizeof_int64)%nat.
Proof.
  unfold CInt.array_bytes.
  induction l as [|x l IH]; cbn [flat_map length]; [reflexivity|].
  rewrite length_app, int64_bytes_length, IH. reflexivity.
Qed.

(** Arrays of [int64_t] of one length with the same bytes are equal. *)
Lemma array_bytes_inj (l1 l2 : list Z) :
  Forall CInt.is_int64 l1 -> Forall CInt.is_int64 l2 ->
  length l1 = length l2 ->
  CInt.array_bytes l1 = CInt.array_bytes l2 -> l1 = l2.
Proof.
  intros H1. revert l2.
  induction H1 as [|a l1 Ha H1 IH]; intros l2 H2 Hlen Hbytes.
  - destruct l2; [reflexivity | discriminate Hlen].
  - destruct H2 as [|b l2 Hb H2]; [discriminate Hlen|].
    unfold CInt.array_bytes in Hbytes. cbn [flat_map] in Hbytes.
    apply app_inj_1 in Hbytes as [Hhead Htail];
      [|rewrite !int64_bytes_length; reflexivity].
    f_equal.
    + apply int64_bytes_inj; assumption.
    + apply IH; [assumption | | assumption].
      simpl in Hlen. congruence.
Qed.

(** C3: on every Shape, [hash(true)] combines the scalar-type hash with
    the data hash of the raw bytes of the size sequence, and
    [hash(false)] combines it with the hash of the number of dimensions;
    two Shapes with equal scalar type and equal rank have the same
    [hash(false)], and when their sizes differ the bytes that
    [hash(true)] feeds to the data hash differ. *)
Theorem Shape_hash_variants `{HashPrims} :
  (forall s : Shape.t,
      Shape.hash s true
      = HashCombine (Hash_ScalarType (Shape.scalar_type s))
                    (DataHash (CInt.array_bytes (Shape.sizes s))))
  /\ (forall s : Shape.t,
         Shape.hash s false
         = HashCombine (Hash_ScalarType (Shape.scalar_type s))
                       (Hash_size_t (Z.of_nat (length (Shape.sizes s)))))
  /\ (forall s1 s2 : Shape.t,
         Shape.scalar_type s1 = Shape.scalar_type s2 ->
         length (Shape.sizes s1) = length (Shape.sizes s2) ->
         Shape.hash s1 false = Shape.hash s2 false)
  /\ (forall s1 s2 : Shape.t,
         Forall CInt.is_int64 (Shape.sizes s1) ->
         Forall CInt.is_int64 (Shape.sizes s2) ->
         length (Shape.sizes s1) = length (Shape.sizes s2) ->
         Shape.sizes s1 <> Shape.sizes s2 ->
         CInt.array_bytes (Shape.sizes s1)
         <> CInt.array_bytes (Shape.sizes s2)).
Proof.
  unfold Shape.scalar_type, Shape.sizes.
  split; [intros s; reflexivity|]. split; [intros s; reflexivity|].
  split.
  - intros s1 s2 Htype Hrank. unfold Shape.hash.
    rewrite Htype, Hrank. reflexivity.
  - intros s1 s2 Hint1 Hint2 Hrank Hsizes Hbytes. apply Hsizes.
    apply array_bytes_inj; assumption.
Qed.

(** C3 at [float32[2,3]] and [float32[2,4]]. *)
Lemma Shape_hash_variants_witness :
  Shape.hash (H := sample_HashPrims) float32_2_3 false
  = Shape.hash (H := sample_HashPrims) float32_2_4 false
  /\ CInt.array_bytes (Shape.sizes float32_2_3)
     <> CInt.array_bytes (Shape.sizes float32_2_4).
Proof.
  assert (H23 : Forall CInt.is_int64 (Shape.sizes float32_2_3)).
  { repeat constructor; unfold CInt.is_int64; lia. }
  assert (H24 : Forall CInt.is_int64 (Shape.sizes float32_2_4)).
  { repeat constructor; unfold CInt.is_int64; lia. }
  assert (Hne : Shape.sizes float32_2_3 <> Shape.sizes float32_2_4).
  { simpl. intros Heq. discriminate Heq. }
  destruct (Shape_hash_variants (H := sample_HashPrims))
    as (_ & _ & Hfalse & Hbytes).
  split.
  - exact (Hfalse float32_2_3 float32_2_4 eq_refl eq_refl).
  - exact (Hbytes float32_2_3 float32_2_4 H23 H24 eq_refl Hne).
Defined.

(** ** C4: the symbolic-shape switch *)

(** C4, as stated, at a process started without the variable and with
    the flag off: the first call returns [false]; after the flag is
    turned on, the second call returns [true]. *)
Lemma symbolicShapeEnabled_follows_flag :
  let first := symbolicShapeEnabled (fresh None false) in
  let second := symbolicShapeEnabled (set_flag true (snd first)) in
  fst first = false /\ fst second = true /\ fst second <> fst first.
Proof. cbv zeta. repeat split. discriminate. Qed.

(** A call in a process in which the function has run before. *)
Lemma symbolicShapeEnabled_called (p : Process) (e : bool) :
  static_enabled p = Some e ->
  fst (symbolicShapeEnabled p) = e || FLAGS_ltc_enable_symbolic_shapes p
  /\ static_enabled (snd (symbolicShapeEnabled p)) = Some e.
Proof.
  intros He. unfold symbolicShapeEnabled. rewrite He. split; reflexivity.
Qed.

(** Through any actions the local static keeps the value it has, and
    when that value is true every call made returns true. *)
Lemma run_keeps_static (actions : list action) (p : Process) (e : bool) :
  static_enabled p = Some e ->
  static_enabled (snd (run actions p)) = Some e
  /\ (e = true -> Forall (fun r => r = true) (fst (run actions p))).
Proof.
  revert p.
  induction actions as [|[env|flag|] actions IH]; intros p Hcalled.
  - split; [exact Hcalled | intros _; constructor].
  - apply IH. exact Hcalled.
  - apply IH. exact Hcalled.
  - cbn [run].
    destruct (symbolicShapeEnabled_called p e Hcalled) as [Hr Hs].
    destruct (symbolicShapeEnabled p) as [r p'].
    simpl in Hr, Hs.
    destruct (IH p' Hs) as [IH1 IH2].
    destruct (run actions p') as [rs p''].
    simpl in *. split; [exact IH1|].
    intros He. constructor; [|apply IH2; exact He].
    rewrite Hr, He. reflexivity.
Qed.

(** C4, amended: the first call of a process returns true iff the
    variable is set or the flag is on; only the lookup of the variable is
    cached, so every later call, after any sequence of changes of the
    variable, changes of the flag and further calls, returns true iff the
    variable was set at the first call or the flag is on at that later
    call; a change of the environment just before a call does not change
    what it returns, and a later call made with the flag as it was at the
    first call returns what the first call returned. *)
Theorem symbolicShapeEnabled_caches_env (env : option string)
    (flag : bool) (actions : list action) :
  let first := symbolicShapeEnabled (fresh env flag) in
  let later := snd (run actions (snd first)) in
  (fst first = true <-> has_value env = true \/ flag = true)
  /\ (fst (symbolicShapeEnabled later) = true
      <-> has_value env = true
          \/ FLAGS_ltc_enable_symbolic_shapes later = true)
  /\ (forall env' : option string,
        fst (symbolicShapeEnabled (set_env env' later))
        = fst (symbolicShapeEnabled later))
  /\ (FLAGS_ltc_enable_symbolic_shapes later = flag ->
      fst (symbolicShapeEnabled later) = fst first).
Proof.
  cbv zeta.
  assert (Hfirst : fst (symbolicShapeEnabled (fresh env flag))
                   = has_value env || flag).
  { destruct env; reflexivity. }
  assert (Hstatic : static_enabled (snd (symbolicShapeEnabled (fresh env flag)))
                    = Some (has_value env)).
  { destruct env; reflexivity. }
  destruct (run_keeps_static actions _ _ Hstatic) as [Hlater _].
  set (later := snd (run actions (snd (symbolicShapeEnabled (fresh env flag)))))
    in *.
  destruct (symbolicShapeEnabled_called later _ Hlater) as [Hcall _].
  split; [rewrite Hfirst; apply orb_true_iff|].
  split; [rewrite Hcall; apply orb_true_iff|].
  split.
  - intros env'.
    destruct (symbolicShapeEnabled_called (set_env env' later)
                (has_value env) Hlater) as [Hcall' _].
    rewrite Hcall', Hcall. reflexivity.
  - intros Hflag. rewrite Hcall, Hfirst, Hflag. reflexivity.
Qed.

(** The amended C4 with the variable set at the first call and the flag
    off; the variable is then unset, a call is made, and the flag is
    turned on and off again: the next call returns [true], as the first
    did. *)
Lemma symbolicShapeEnabled_caches_env_witness :
  let first := symbolicShapeEnabled (fresh (Some "1"%string) false) in
  let later :=
    snd (run [SetEnv None; Call; SetFlag true; SetFlag false] (snd first)) in
  fst first = true /\ fst (symbolicShapeEnabled later) = fst first.
Proof.
  cbv zeta.
  destruct (symbolicShapeEnabled_caches_env (Some "1"%string) false
              [SetEnv None; Call; SetFlag true; SetFlag false])
    as (_ & _ & _ & Hsame).
  split; [reflexivity | exact (Hsame eq_refl)].
Defined.

(** ** C5: consistency of the symbolic-dims metadata *)

(** One iteration of the loop of [get_symbolic_shape] at an index inside
    both vectors. *)
Lemma get_symbolic_shape_step_in_range (sizes : list Z)
    (is_symbolic : list bool) (i : nat) (acc : list (option Z))
    (b : bool) (sz : Z) :
  is_symbolic !! i = Some b -> sizes !! i = Some sz ->
  get_symbolic_shape_step sizes is_symbolic i acc
  = Ok (acc ++ [if b then None else Some sz]).
Proof.
  intros Hb Hsz. unfold get_symbolic_shape_step, vec_at.
  rewrite Hb, Hsz. destruct b; reflexivity.
Qed.

(** The loop of [get_symbolic_shape] from index [i] on, when the two
    vectors have one length: no access is out of range. *)
Lemma get_symbolic_shape_loop (sizes : list Z) (is_symbolic : list bool) :
  length sizes = length is_symbolic ->
  forall (k i : nat) (acc : list (option Z)),
    (i + k)%nat = length sizes ->
    for_from (get_symbolic_shape_step sizes is_symbolic) i k acc
    = Ok (acc ++ masked_sizes (drop i is_symbolic) (drop i sizes)).
Proof.
  intros Hlen. induction k as [|k IH]; intros i acc Hik.
  - simpl. rewrite !drop_ge by lia. unfold masked_sizes. simpl.
    rewrite app_nil_r. reflexivity.
  - destruct (lookup_lt_is_Some_2 is_symbolic i) as [b Hb]; [lia|].
    destruct (lookup_lt_is_Some_2 sizes i) as [sz Hsz]; [lia|].
    rewrite (drop_S _ _ _ Hb), (drop_S _ _ _ Hsz).
    cbn [for_from].
    rewrite (get_symbolic_shape_step_in_range _ _ _ _ _ _ Hb Hsz).
    change (for_from (get_symbolic_shape_step sizes is_symbolic) (S i) k
              (acc ++ [if b then None else Some sz])
            = Ok (acc ++ masked_sizes (b :: drop (S i) is_symbolic)
                                      (sz :: drop (S i) sizes))).
    rewrite IH by lia. rewrite <- app_assoc. reflexivity.
Qed.

(** What [get_symbolic_shape] returns on a lazy tensor with consistent
    metadata. *)
Lemma get_symbolic_shape_lazy (tensor : Tensor) (lt : LazyTensor)
    (dims : list bool) :
  TryGetLtcTensor tensor = Some lt ->
  Shape.is_symbolic (ir_value_shape lt) = Some dims ->
  length dims = length (Shape.sizes (ir_value_shape lt)) ->
  get_symbolic_shape tensor
  = Ok (SymbolicShape_of_dims
          (masked_sizes dims (Shape.sizes (ir_value_shape lt)))).
Proof.
  intros Hlt Hsym Hlen. unfold get_symbolic_shape.
  rewrite Hlt, Hsym.
  rewrite <- Hlen, Nat.eqb_refl. simpl.
  unfold for_range.
  rewrite Hlen, (get_symbolic_shape_loop _ dims) by lia.
  rewrite !drop_0. reflexivity.
Qed.




(** ** C1: no result from the inference engine *)

(** C1 on the code: when the schema is found, the arguments convert and
    the inference engine returns no result, [applySymbolicShapesOnLT]
    takes the branch for a disengaged [res_symbolic], whose loop bound
    [res_symbolic->size()] goes through the disengaged optional: the call
    does not return, and [result_shapes] gets no defined final content. *)
Theorem applySymbolicShapesOnLT_no_result `{JitApi} (schema_str : string)
    (args : list IValue) (result_shapes : list Shape.t)
    (schema : FunctionSchema) (converted_args : list SSAInput)
    (Hschema : getOperatorForLiteral_schema schema_str = Ok schema)
    (Hargs : convert_args args = Ok converted_args)
    (Hnone : calculateSymbolicShapesOnOp schema converted_args = None) :
  applySymbolicShapesOnLT schema_str args result_shapes
  = Undefined "operator-> on a disengaged optional"
  /\ ~ returns (applySymbolicShapesOnLT schema_str args result_shapes).
Proof.
  assert (Hrun : applySymbolicShapesOnLT schema_str args result_shapes
                 = Undefined "operator-> on a disengaged optional").
  { unfold applySymbolicShapesOnLT.
    rewrite Hschema. simpl. rewrite Hargs. simpl.
    rewrite Hnone. reflexivity. }
  split; [exact Hrun|].
  rewrite Hrun. intros [shapes Hshapes]. discriminate Hshapes.
Qed.

(** C1 at a call for [relu] on one concrete tensor, with one result
    shape [float32[2,3]] and an engine without result. *)
Lemma applySymbolicShapesOnLT_no_result_witness :
  applySymbolicShapesOnLT (H := no_result_JitApi) relu_schema
    [IV_Tensor concrete_2_3] [float32_2_3]
  = Undefined "operator-> on a disengaged optional".
Proof.
  apply (applySymbolicShapesOnLT_no_result (H := no_result_JitApi)
           relu_schema [IV_Tensor concrete_2_3] [float32_2_3] relu_schema
           [SSA_SymbolicShape (SymbolicShape_of_sizes [2; 3])]);
    reflexivity.
Defined.

(** * Properties beyond the claims *)

(** ** Shapes: equality, hashes, element count *)

Lemma Shape_eqb_refl (a : Shape.t) : Shape.eqb a a = true.
Proof. apply Shape_eqb_eq. split; reflexivity. Qed.

(** X1: [Shape::operator==] is an equivalence relation on shapes: every
    shape equals itself, the comparison gives the same answer in both
    directions, and it is transitive; it is coarser than identity of the
    objects: two shapes that differ in their symbolic-dims metadata only
    compare equal. *)
Theorem Shape_eq_equivalence (a b c : Shape.t) :
  Shape.eqb a a = true
  /\ Shape.eqb a b = Shape.eqb b a
  /\ (Shape.eqb a b = true -> Shape.eqb b c = true ->
      Shape.eqb a c = true)
  /\ (forall d : option (list bool),
        Shape.is_symbolic a <> d ->
        Shape.eqb a (Shape.with_symbolic_dims a d) = true
        /\ a <> Shape.with_symbolic_dims a d).
Proof.
  split; [apply Shape_eqb_refl|].
  split.
  { apply eq_true_iff_eq. rewrite !Shape_eqb_eq.
    split; intros [Htype Hsizes]; split; congruence. }
  split.
  { rewrite !Shape_eqb_eq. intros [Hab1 Hab2] [Hbc1 Hbc2].
    split; congruence. }
  intros d Hd. split.
  - apply Shape_eqb_eq. split; reflexivity.
  - intros Heq. apply Hd. rewrite Heq at 1. reflexivity.
Qed.

(** X1 at [float32[2,3]] with and without metadata. *)
Lemma Shape_eq_equivalence_witness :
  Shape.eqb float32_2_3
    (Shape.with_symbolic_dims float32_2_3 (Some [true; false])) = true
  /\ float32_2_3 <> Shape.with_symbolic_dims float32_2_3 (Some [true; false])
  /\ Shape.eqb float32_2_3 float32_2_3 = true.
Proof.
  destruct (Shape_eq_equivalence float32_2_3 float32_2_3 float32_2_3)
    as (Hrefl & _ & Htrans & Hd).
  destruct (Hd (Some [true; false])) as [Heq Hne]; [simpl; discriminate|].
  split; [exact Heq|]. split; [exact Hne|].
  exact (Htrans Hrefl Hrefl).
Defined.

(** X2: shapes that compare equal under [operator==] have the same
    hash in both variants, the same [numel()] and the same rendering. *)
Theorem Shape_eq_congruence `{HashPrims} `{StrPrims} (a b : Shape.t)
    (Hab : Shape.eqb a b = true) :
  Shape.hash a true = Shape.hash b true
  /\ Shape.hash a false = Shape.hash b false
  /\ Shape.numel a = Shape.numel b
  /\ Shape.to_string a = Shape.to_string b.
Proof.
  apply Shape_eqb_eq in Hab as [Htype Hsizes].
  unfold Shape.scalar_type, Shape.sizes in *.
  unfold Shape.hash, Shape.numel, Shape.to_string.
  rewrite Htype, Hsizes. repeat split.
Qed.

(** X2 at [float32[2,3]] and the same shape with metadata attached. *)
Lemma Shape_eq_congruence_witness :
  Shape.hash (H := sample_HashPrims) float32_2_3 true
  = Shape.hash (H := sample_HashPrims)
      (Shape.with_symbolic_dims float32_2_3 (Some [true; false])) true
  /\ Shape.to_string (H := sample_StrPrims)
       (Shape.with_symbolic_dims float32_2_3 (Some [true; false]))
     = "Float[2,3]"%string.
Proof.
  destruct (Shape_eq_congruence (H := sample_HashPrims)
              (H0 := sample_StrPrims) float32_2_3
              (Shape.with_symbolic_dims float32_2_3 (Some [true; false]))
              eq_refl) as (Htrue & _ & _ & Hstr).
  split; [exact Htrue|]. rewrite <- Hstr. reflexivity.
Defined.

(** X3: [with_symbolic_dims] replaces the metadata as a whole: of two
    calls in a row only the second shows, giving a shape its own
    metadata returns the shape, and no call changes a hash, [numel()] or
    the rendering. *)
Theorem with_symbolic_dims_overwrites `{HashPrims} `{StrPrims}
    (s : Shape.t) (d1 d2 : option (list bool)) :
  Shape.with_symbolic_dims (Shape.with_symbolic_dims s d1) d2
  = Shape.with_symbolic_dims s d2
  /\ Shape.with_symbolic_dims s (Shape.is_symbolic s) = s
  /\ (forall bakeInSizes,
        Shape.hash (Shape.with_symbolic_dims s d1) bakeInSizes
        = Shape.hash s bakeInSizes)
  /\ Shape.numel (Shape.with_symbolic_dims s d1) = Shape.numel s
  /\ Shape.to_string (Shape.with_symbolic_dims s d1) = Shape.to_string s.
Proof.
  destruct s as [st sizes sym]. repeat split.
Qed.

(** The product of the sizes is the same in any order. *)
Lemma product_Permutation (l1 l2 : list Z) :
  Permutation l1 l2 -> product l1 = product l2.
Proof.
  induction 1 as [|x l l' _ IH|x y l|l l' l'' _ IH1 _ IH2]; simpl.
  - reflexivity.
  - rewrite IH. reflexivity.
  - lia.
  - congruence.
Qed.

Lemma product_app (l1 l2 : list Z) :
  product (l1 ++ l2) = product l1 * product l2.
Proof.
  induction l1 as [|x l1 IH]; simpl.
  - destruct (product l2); reflexivity.
  - rewrite IH. lia.
Qed.

Lemma product_In_zero (l : list Z) : In 0 l -> product l = 0.
Proof.
  induction l as [|x l IH]; simpl; [contradiction|].
  intros [-> | Hin]; [reflexivity|]. rewrite IH by assumption. lia.
Qed.

(** X4: [numel()] is a [size_t] value for any sizes, and it is [0] as
    soon as one dimension has size [0], whatever the other sizes are. *)
Theorem numel_zero_dimension (s : Shape.t)
    (Hzero : In 0 (Shape.sizes s)) :
  CInt.is_size_t (Shape.numel s) /\ Shape.numel s = 0.
Proof.
  rewrite numel_wraps. split.
  - apply Z.mod_pos_bound. reflexivity.
  - rewrite product_In_zero by assumption. reflexivity.
Qed.

(** X4 at [float32[-7, 0, 2^40]]. *)
Lemma numel_zero_dimension_witness :
  Shape.numel (Shape.Shape Float [-7; 0; 2 ^ 40]) = 0.
Proof.
  apply (numel_zero_dimension (Shape.Shape Float [-7; 0; 2 ^ 40])).
  simpl. right. left. reflexivity.
Defined.

(** X5: [numel()] of a shape whose sizes are two sequences one after the
    other is the [size_t] product of the two counts, and [numel()] does
    not depend on the order of the sizes; wrap-around included. *)
Theorem numel_app_Permutation (st1 st2 : ScalarType) (l1 l2 : list Z) :
  Shape.numel (Shape.Shape st1 (l1 ++ l2))
  = CInt.size_t_mul (Shape.numel (Shape.Shape st1 l1))
                    (Shape.numel (Shape.Shape st1 l2))
  /\ (Permutation l1 l2 ->
      Shape.numel (Shape.Shape st1 l1) = Shape.numel (Shape.Shape st2 l2)).
Proof.
  rewrite !numel_wraps. unfold Shape.sizes. simpl. split.
  - rewrite product_app. unfold CInt.size_t_mul.
    apply Z.mul_mod. discriminate.
  - intros Hperm. rewrite (product_Permutation _ _ Hperm). reflexivity.
Qed.

(** X5 at [[2^40, 3]] and [[3, 2^40]], and at their concatenation, whose
    count wraps. *)
Lemma numel_app_Permutation_witness :
  Shape.numel (Shape.Shape Float [2 ^ 40; 3])
  = Shape.numel (Shape.Shape Long [3; 2 ^ 40]).
Proof.
  apply (numel_app_Permutation Float Long [2 ^ 40; 3] [3; 2 ^ 40]).
  apply perm_swap.
Defined.

(** ** Symbolic shapes of tensors *)

Lemma tensor_consistentb_spec (tensor : Tensor) :
  tensor_consistentb tensor = true <-> tensor_consistent tensor.
Proof.
  unfold tensor_consistentb, tensor_consistent, Shape.consistent,
    Shape.is_symbolic, Shape.sizes.
  destruct (TryGetLtcTensor tensor) as [lt|]; [|tauto].
  destruct (Shape.is_symbolic_ (ir_value_shape lt)) as [dims|]; [|tauto].
  apply Nat.eqb_eq.
Qed.

(** [get_symbolic_shape] on any tensor: the symbolic shape standing for
    the tensor, or the failed assertion. *)
Lemma get_symbolic_shape_cases (tensor : Tensor) :
  get_symbolic_shape tensor
  = if tensor_consistentb tensor then Ok (symbolic_shape_of tensor)
    else AssertFail "Dims of two values are not consistent".
Proof.
  unfold tensor_consistentb, symbolic_shape_of.
  destruct (TryGetLtcTensor tensor) as [lt|] eqn:Hlt.
  - destruct (Shape.is_symbolic (ir_value_shape lt)) as [dims|] eqn:Hsym.
    + destruct (Nat.eqb_spec (length dims)
                  (length (Shape.sizes (ir_value_shape lt)))) as [Heq|Hne].
      * apply get_symbolic_shape_lazy; assumption.
      * unfold get_symbolic_shape. rewrite Hlt, Hsym.
        destruct (Nat.eqb_spec (length (Shape.sizes (ir_value_shape lt)))
                    (length dims)) as [Heq|_]; [|reflexivity].
        exfalso. apply Hne. symmetry. exact Heq.
    + unfold get_symbolic_shape. rewrite Hlt, Hsym. reflexivity.
  - unfold get_symbolic_shape. rewrite Hlt. reflexivity.
Qed.

Lemma masked_sizes_length (dims : list bool) (sizes : list Z) :
  length dims = length sizes ->
  length (masked_sizes dims sizes) = length sizes.
Proof.
  intros Hlen. unfold masked_sizes. rewrite length_zip_with. lia.
Qed.

Lemma masked_sizes_unknowns (dims : list bool) (sizes : list Z) :
  length dims = length sizes ->
  map (fun d : option Z => negb (has_value d)) (masked_sizes dims sizes)
  = dims.
Proof.
  unfold masked_sizes. revert sizes.
  induction dims as [|b dims IH]; intros [|sz sizes] Hlen;
    try discriminate Hlen; [reflexivity|].
  simpl. rewrite IH by (simpl in Hlen; lia).
  destruct b; reflexivity.
Qed.

(** X6: on a lazy tensor whose shape carries symbolic-dims metadata of
    the length of its sizes, [get_symbolic_shape] returns a ranked
    symbolic shape with one entry per dimension, in order: unknown where
    the metadata says symbolic, the size itself elsewhere; the unknown
    entries are exactly the symbolic dimensions. *)
Theorem get_symbolic_shape_entries (tensor : Tensor) (lt : LazyTensor)
    (dims : list bool)
    (Hlazy : TryGetLtcTensor tensor = Some lt)
    (Hmeta : Shape.is_symbolic (ir_value_shape lt) = Some dims)
    (Hlen : length dims = length (Shape.sizes (ir_value_shape lt))) :
  exists entries : list (option Z),
    get_symbolic_shape tensor = Ok (Some entries)
    /\ length entries = length (Shape.sizes (ir_value_shape lt))
    /\ (forall (i : nat) (b : bool) (sz : Z),
          dims !! i = Some b ->
          Shape.sizes (ir_value_shape lt) !! i = Some sz ->
          entries !! i = Some (if b then None else Some sz))
    /\ map (fun d : option Z => negb (has_value d)) entries = dims.
Proof.
  exists (masked_sizes dims (Shape.sizes (ir_value_shape lt))).
  split; [apply get_symbolic_shape_lazy; assumption|].
  split; [apply masked_sizes_length; assumption|].
  split; [|apply masked_sizes_unknowns; assumption].
  intros i b sz Hb Hsz. unfold masked_sizes.
  rewrite lookup_zip_with, Hb, Hsz. reflexivity.
Qed.

(** X6 at a lazy [float32[2,3]] whose first dimension is symbolic. *)
Lemma get_symbolic_shape_entries_witness :
  exists entries : list (option Z),
    get_symbolic_shape (lazy_2_3 [true; false]) = Ok (Some entries)
    /\ entries !! 0%nat = Some None
    /\ entries !! 1%nat = Some (Some 3).
Proof.
  destruct (get_symbolic_shape_entries (lazy_2_3 [true; false])
              {| ir_value_shape :=
                   Shape.with_symbolic_dims float32_2_3 (Some [true; false]) |}
              [true; false] eq_refl eq_refl eq_refl)
    as (entries & Hrun & _ & Hat & _).
  exists entries. split; [exact Hrun|]. split.
  - exact (Hat 0%nat true 2 eq_refl eq_refl).
  - exact (Hat 1%nat false 3 eq_refl eq_refl).
Defined.

(** ** Conversion of the arguments *)

(** The loop over a tensor list. *)
Lemma convert_tensor_list (tensors : list Tensor) (acc : list SSAInput) :
  for_each
    (fun tensor acc =>
       ss ← get_symbolic_shape tensor;
       Ok (acc ++ [SSA_SymbolicShape ss]))
    tensors acc
  = if forallb tensor_consistentb tensors
    then Ok (acc ++ map (fun tensor =>
                           SSA_SymbolicShape (symbolic_shape_of tensor))
                        tensors)
    else AssertFail "Dims of two values are not consistent".
Proof.
  revert acc. induction tensors as [|t tensors IH]; intros acc.
  - simpl. rewrite app_nil_r. reflexivity.
  - cbn [for_each forallb map]. rewrite get_symbolic_shape_cases.
    destruct (tensor_consistentb t); [|reflexivity].
    change (for_each
              (fun tensor acc0 =>
                 ss ← get_symbolic_shape tensor;
                 Ok (acc0 ++ [SSA_SymbolicShape ss]))
              tensors (acc ++ [SSA_SymbolicShape (symbolic_shape_of t)])
            = if forallb tensor_consistentb tensors
              then Ok (acc ++ SSA_SymbolicShape (symbolic_shape_of t)
                           :: map (fun tensor =>
                                     SSA_SymbolicShape
                                       (symbolic_shape_of tensor)) tensors)
              else AssertFail "Dims of two values are not consistent").
    rewrite IH. rewrite <- app_assoc. reflexivity.
Qed.

(** The loop over the arguments, from any list converted so far. *)
Lemma convert_args_loop (args : list IValue) (acc : list SSAInput) :
  for_each convert_arg args acc
  = if forallb tensor_consistentb (flat_map arg_tensors args)
    then Ok (acc ++ flat_map converted_of args)
    else AssertFail "Dims of two values are not consistent".
Proof.
  revert acc. induction args as [|arg args IH]; intros acc.
  - simpl. rewrite app_nil_r. reflexivity.
  - cbn [for_each flat_map]. rewrite forallb_app.
    destruct arg as [tensors|tensor|repr]; cbn [convert_arg arg_tensors].
    + rewrite convert_tensor_list.
      destruct (forallb tensor_consistentb tensors); [|reflexivity].
      simpl. rewrite IH. rewrite <- app_assoc. reflexivity.
    + rewrite get_symbolic_shape_cases. cbn [forallb].
      destruct (tensor_consistentb tensor); [|reflexivity].
      simpl. rewrite IH. rewrite <- app_assoc. reflexivity.
    + simpl. rewrite IH. rewrite <- app_assoc. reflexivity.
Qed.

Lemma forallb_tensor_consistent (tensors : list Tensor) :
  forallb tensor_consistentb tensors = true
  <-> Forall tensor_consistent tensors.
Proof.
  rewrite forallb_forall, Forall_forall.
  split; intros Hall t Hin.
  - apply tensor_consistentb_spec, Hall. apply list_elem_of_In. exact Hin.
  - apply tensor_consistentb_spec, Hall. apply list_elem_of_In. exact Hin.
Qed.

(** X7: when every tensor among the arguments, those inside tensor lists
    included, has consistent metadata, the conversion returns the
    arguments in order, each tensor list flattened into one symbolic
    shape per tensor, each tensor replaced by its symbolic shape, and
    every other value passed through as it is. *)
Theorem convert_args_flattens (args : list IValue)
    (Hall : Forall tensor_consistent (flat_map arg_tensors args)) :
  convert_args args = Ok (flat_map converted_of args).
Proof.
  unfold convert_args. rewrite convert_args_loop.
  apply forallb_tensor_consistent in Hall. rewrite Hall. reflexivity.
Qed.

(** X7 at a list of two tensors between two other arguments. *)
Lemma convert_args_flattens_witness :
  convert_args
    [IV_Other "1"; IV_TensorList [concrete_2_3; lazy_2_3 [false; true]];
     IV_Other "dim"]
  = Ok [SSA_IValue (IV_Other "1");
        SSA_SymbolicShape (Some [Some 2; Some 3]);
        SSA_SymbolicShape (Some [Some 2; None]);
        SSA_IValue (IV_Other "dim")].
Proof.
  apply (convert_args_flattens
           [IV_Other "1"; IV_TensorList [concrete_2_3; lazy_2_3 [false; true]];
            IV_Other "dim"]).
  apply forallb_tensor_consistent. reflexivity.
Defined.

(** X8: when some tensor among the arguments, at any position and also
    inside a tensor list, has symbolic-dims metadata of another length
    than its sizes, the conversion stops in the fatal assertion and
    returns no list. *)
Theorem convert_args_rejects (args : list IValue)
    (Hbad : ~ Forall tensor_consistent (flat_map arg_tensors args)) :
  convert_args args = AssertFail "Dims of two values are not consistent".
Proof.
  unfold convert_args. rewrite convert_args_loop.
  destruct (forallb tensor_consistentb (flat_map arg_tensors args)) eqn:Hb;
    [|reflexivity].
  exfalso. apply Hbad. apply forallb_tensor_consistent. exact Hb.
Qed.

(** X8 at a tensor list whose last tensor has one metadata entry for two
    dimensions. *)
Lemma convert_args_rejects_witness :
  convert_args [IV_Other "1"; IV_TensorList [concrete_2_3; lazy_2_3 [true]]]
  = AssertFail "Dims of two values are not consistent".
Proof.
  apply convert_args_rejects.
  intros Hall. apply forallb_tensor_consistent in Hall. discriminate Hall.
Defined.

(** ** Applying an inference result *)

(** One iteration of the loop that applies a result, at the index
    between the shapes already visited and those still to visit. *)
Lemma apply_symbolic_step_middle (visited rest : list Shape.t)
    (rs_visited rs_rest : list SymbolicShape) (s : Shape.t)
    (ss : SymbolicShape) :
  length visited = length rs_visited ->
  apply_symbolic_step (rs_visited ++ ss :: rs_rest) (length visited)
    (visited ++ s :: rest)
  = Ok (visited ++ refined s ss :: rest).
Proof.
  intros Hlen. unfold apply_symbolic_step, vec_at, vec_get, vec_set, refined.
  rewrite (list_lookup_middle rs_visited rs_rest ss (length visited))
    by exact Hlen.
  simpl. destruct (symbolicDims ss) as [sym_dims|]; [|reflexivity].
  rewrite (list_lookup_middle visited rest s (length visited)) by reflexivity.
  simpl.
  replace (length visited) with (length visited + 0)%nat at 1 by lia.
  rewrite insert_app_r. reflexivity.
Qed.

(** The loop that applies a result, from any index on: the shapes
    visited stay, each other shape is refined by the result at its
    index. *)
Lemma apply_symbolic_loop (rest : list Shape.t) :
  forall (rs_rest : list SymbolicShape) (visited : list Shape.t)
         (rs_visited : list SymbolicShape),
    length rest = length rs_rest ->
    length visited = length rs_visited ->
    for_from (apply_symbolic_step (rs_visited ++ rs_rest))
      (length visited) (length rs_rest) (visited ++ rest)
    = Ok (visited ++ zip_with refined rest rs_rest).
Proof.
  induction rest as [|s rest IH];
    intros [|ss rs_rest] visited rs_visited Hrest Hvisited;
    try discriminate Hrest; [reflexivity|].
  cbn [length for_from].
  rewrite apply_symbolic_step_middle by assumption.
  change (for_from (apply_symbolic_step (rs_visited ++ ss :: rs_rest))
            (S (length visited)) (length rs_rest)
            (visited ++ refined s ss :: rest)
          = Ok (visited ++ refined s ss :: zip_with refined rest rs_rest)).
  rewrite (cons_middle ss rs_visited rs_rest), app_assoc.
  rewrite (cons_middle (refined s ss) visited rest), app_assoc.
  replace (S (length visited)) with (length (visited ++ [refined s ss]))
    by (rewrite length_app; simpl; lia).
  rewrite IH.
  - rewrite <- app_assoc. reflexivity.
  - simpl in Hrest. lia.
  - rewrite !length_app. simpl. lia.
Qed.

Lemma refined_eqb (s : Shape.t) (ss : SymbolicShape) :
  Shape.eqb (refined s ss) s = true.
Proof.
  unfold refined. destruct (symbolicDims ss); apply Shape_eqb_eq;
    split; reflexivity.
Qed.

(** X9: when the engine returns one result per result shape, the call
    returns; [result_shapes] keeps its length; the shape at each index
    keeps its sizes and scalar type, and takes the symbolic dimensions of
    the result at that index when that result has them, keeping its own
    metadata otherwise. *)
Theorem applySymbolicShapesOnLT_applies `{JitApi} (schema_str : string)
    (args : list IValue) (result_shapes : list Shape.t)
    (schema : FunctionSchema) (res : list SymbolicShape)
    (Hschema : getOperatorForLiteral_schema schema_str = Ok schema)
    (Hargs : Forall tensor_consistent (flat_map arg_tensors args))
    (Hres : calculateSymbolicShapesOnOp schema (flat_map converted_of args)
            = Some res)
    (Hcount : length res = length result_shapes) :
  exists shapes' : list Shape.t,
    applySymbolicShapesOnLT schema_str args result_shapes = Ok shapes'
    /\ length shapes' = length result_shapes
    /\ (forall (i : nat) (s : Shape.t) (ss : SymbolicShape),
          result_shapes !! i = Some s -> res !! i = Some ss ->
          exists s' : Shape.t,
            shapes' !! i = Some s'
            /\ Shape.eqb s' s = true
            /\ Shape.is_symbolic s'
               = match symbolicDims ss with
                 | Some sym_dims => Some sym_dims
                 | None => Shape.is_symbolic s
                 end).
Proof.
  exists (zip_with refined result_shapes res).
  split; [|split].
  - unfold applySymbolicShapesOnLT. rewrite Hschema. simpl.
    unfold convert_args. rewrite convert_args_loop.
    apply forallb_tensor_consistent in Hargs. rewrite Hargs. simpl.
    rewrite Hres. simpl. rewrite Hcount, Nat.eqb_refl. simpl.
    unfold for_range. rewrite <- Hcount.
    apply (apply_symbolic_loop result_shapes res [] []);
      [symmetry; exact Hcount | reflexivity].
  - rewrite length_zip_with. lia.
  - intros i s ss Hs Hss. exists (refined s ss).
    split; [rewrite lookup_zip_with, Hs, Hss; reflexivity|].
    split; [apply refined_eqb|].
    unfold refined. destruct (symbolicDims ss); reflexivity.
Qed.

(** X9 at one result shape [float32[2,3]] and a result whose second
    dimension is unknown. *)
Lemma applySymbolicShapesOnLT_applies_witness :
  exists shapes' : list Shape.t,
    applySymbolicShapesOnLT
      (H := fixed_result_JitApi (Some [Some [Some 2; None]]))
      relu_schema [IV_Tensor concrete_2_3] [float32_2_3] = Ok shapes'
    /\ length shapes' = 1%nat.
Proof.
  destruct (applySymbolicShapesOnLT_applies
              (H := fixed_result_JitApi (Some [Some [Some 2; None]]))
              relu_schema [IV_Tensor concrete_2_3] [float32_2_3]
              relu_schema [Some [Some 2; None]] eq_refl
              (proj1 (forallb_tensor_consistent [concrete_2_3]) eq_refl)
              eq_refl eq_refl)
    as (shapes' & Hrun & Hlen & _).
  exists shapes'. split; [exact Hrun | exact Hlen].
Defined.

(** X10: when the engine returns a result list whose length is not the
    number of result shapes, the call stops in the fatal assertion on
    the result count. *)
Theorem applySymbolicShapesOnLT_count_mismatch `{JitApi}
    (schema_str : string) (args : list IValue)
    (result_shapes : list Shape.t) (schema : FunctionSchema)
    (res : list SymbolicShape)
    (Hschema : getOperatorForLiteral_schema schema_str = Ok schema)
    (Hargs : Forall tensor_consistent (flat_map arg_tensors args))
    (Hres : calculateSymbolicShapesOnOp schema (flat_map converted_of args)
            = Some res)
    (Hcount : length res <> length result_shapes) :
  applySymbolicShapesOnLT schema_str args result_shapes
  = AssertFail "Result shape size is not consistent".
Proof.
  unfold applySymbolicShapesOnLT. rewrite Hschema. simpl.
  unfold convert_args. rewrite convert_args_loop.
  apply forallb_tensor_consistent in Hargs. rewrite Hargs. simpl.
  rewrite Hres. simpl.
  destruct (Nat.eqb_spec (length res) (length result_shapes)) as [Heq|_];
    [contradiction | reflexivity].
Qed.

(** X10 at two results for one result shape. *)
Lemma applySymbolicShapesOnLT_count_mismatch_witness :
  applySymbolicShapesOnLT
    (H := fixed_result_JitApi (Some [None; None]))
    relu_schema [IV_Tensor concrete_2_3] [float32_2_3]
  = AssertFail "Result shape size is not consistent".
Proof.
  apply (applySymbolicShapesOnLT_count_mismatch
           (H := fixed_result_JitApi (Some [None; None]))
           relu_schema [IV_Tensor concrete_2_3] [float32_2_3]
           relu_schema [None; None] eq_refl
           (proj1 (forallb_tensor_consistent [concrete_2_3]) eq_refl)
           eq_refl).
  simpl. discriminate.
Defined.

(** X11: when the schema is found and some tensor among the arguments
    has inconsistent metadata, the call stops in the fatal assertion of
    [get_symbolic_shape], whatever the inference engine would return. *)
Theorem applySymbolicShapesOnLT_bad_argument `{JitApi}
    (schema_str : string) (args : list IValue)
    (result_shapes : list Shape.t) (schema : FunctionSchema)
    (Hschema : getOperatorForLiteral_schema schema_str = Ok schema)
    (Hbad : ~ Forall tensor_consistent (flat_map arg_tensors args)) :
  applySymbolicShapesOnLT schema_str args result_shapes
  = AssertFail "Dims of two values are not consistent".
Proof.
  unfold applySymbolicShapesOnLT. rewrite Hschema. simpl.
  unfold convert_args. rewrite convert_args_loop.
  destruct (forallb tensor_consistentb (flat_map arg_tensors args)) eqn:Hb;
    [|reflexivity].
  exfalso. apply Hbad. apply forallb_tensor_consistent. exact Hb.
Qed.

(** X11 at a lazy argument with one metadata entry for two dimensions,
    with an engine that has a result. *)
Lemma applySymbolicShapesOnLT_bad_argument_witness :
  applySymbolicShapesOnLT
    (H := fixed_result_JitApi (Some [None]))
    relu_schema [IV_Tensor (lazy_2_3 [true])] [float32_2_3]
  = AssertFail "Dims of two values are not consistent".
Proof.
  apply (applySymbolicShapesOnLT_bad_argument
           (H := fixed_result_JitApi (Some [None]))
           relu_schema [IV_Tensor (lazy_2_3 [true])] [float32_2_3]
           relu_schema eq_refl).
  intros Hall. apply forallb_tensor_consistent in Hall. discriminate Hall.
Defined.

(** ** The symbolic-shape switch over a whole run *)

(** X12: once [symbolicShapeEnabled] has been called, the value of its
    local static stays what the first call found, through any sequence
    of changes of the variable, changes of the flag and further calls;
    if the variable was set at the first call every later call returns
    true, also after the variable is unset and the flag cleared; if it
    was not, a call returns the flag as it is at that call. *)
Theorem symbolicShapeEnabled_static_fixed (actions : list action)
    (p : Process) (e : bool) (Hcalled : static_enabled p = Some e) :
  static_enabled (snd (run actions p)) = Some e
  /\ (e = true -> Forall (fun r => r = true) (fst (run actions p)))
  /\ fst (symbolicShapeEnabled (snd (run actions p)))
     = e || FLAGS_ltc_enable_symbolic_shapes (snd (run actions p)).
Proof.
  pose proof (run_keeps_static actions p e Hcalled) as Hrun.
  destruct Hrun as [Hstatic Hall].
  split; [exact Hstatic|]. split; [exact Hall|].
  apply symbolicShapeEnabled_called. exact Hstatic.
Qed.

(** X12 at a process whose first call saw the variable set, and in which
    the variable is then unset and the flag cleared before two calls. *)
Lemma symbolicShapeEnabled_static_fixed_witness :
  Forall (fun r => r = true)
    (fst (run [SetEnv None; SetFlag false; Call; Call]
            (snd (symbolicShapeEnabled (fresh (Some "1"%string) true))))).
Proof.
  destruct (symbolicShapeEnabled_static_fixed
              [SetEnv None; SetFlag false; Call; Call]
              (snd (symbolicShapeEnabled (fresh (Some "1"%string) true)))
              true eq_refl) as (_ & Hall & _).
  exact (Hall eq_refl).
Defined.

(** ** Operation kinds *)

(** X13: on operation kinds, [operator==] holds exactly between kinds of
    the same symbol, [operator!=] is its negation, and [operator<] is a
    strict total order that fits them: it is irreflexive and transitive,
    and of [a < b], [a == b] and [b < a] exactly one holds. *)
Theorem OpKind_order (a b c : OpKind.t) :
  (OpKind.eqb a b = true <-> a = b)
  /\ OpKind.neqb a b = negb (OpKind.eqb a b)
  /\ OpKind.ltb a a = false
  /\ (OpKind.ltb a b = true -> OpKind.ltb b c = true ->
      OpKind.ltb a c = true)
  /\ ((OpKind.ltb a b = true /\ OpKind.eqb a b = false
       /\ OpKind.ltb b a = false)
      \/ (OpKind.ltb a b = false /\ OpKind.eqb a b = true
          /\ OpKind.ltb b a = false)
      \/ (OpKind.ltb a b = false /\ OpKind.eqb a b = false
          /\ OpKind.ltb b a = true)).
Proof.
  destruct a as [x], b as [y], c as [z].
  unfold OpKind.eqb, OpKind.neqb, OpKind.ltb. simpl.
  split.
  { rewrite Z.eqb_eq. split; [intros ->; reflexivity | congruence]. }
  split; [reflexivity|].
  split; [apply Z.ltb_irrefl|].
  split.
  { rewrite !Z.ltb_lt. lia. }
  destruct (Z.ltb_spec x y), (Z.eqb_spec x y), (Z.ltb_spec y x);
    try lia; tauto.
Qed.

(** X13 at the symbols [3], [5] and [8]. *)
Lemma OpKind_order_witness :
  OpKind.ltb (OpKind.mk 3) (OpKind.mk 8) = true.
Proof.
  destruct (OpKind_order (OpKind.mk 3) (OpKind.mk 5) (OpKind.mk 8))
    as (_ & _ & _ & Htrans & _).
  apply Htrans; reflexivity.
Defined.

(** ** Outputs and values *)

Lemma Output_eqb_leibniz (a b : Output.t) :
  Output.eqb a b = true <-> a = b.
Proof.
  rewrite Output_eqb_eq. destruct a, b. simpl.
  split; [intros [-> ->]; reflexivity | intros Heq; split; congruence].
Qed.

(** X14: [Output::operator==] is an equivalence relation, and the
    conversion of a [Value] to an [Output] keeps node and index, so that
    two values convert to equal outputs exactly when they hold the same
    node and the same index. *)
Theorem Output_eq_equivalence (a b c : Output.t) (v w : Value.t)
    (Hab : Output.eqb a b = true) (Hbc : Output.eqb b c = true) :
  Output.eqb a a = true
  /\ Output.eqb b a = true
  /\ Output.eqb a c = true
  /\ Output.node (Value.to_Output v) = Value.node v
  /\ Output.index (Value.to_Output v) = Value.index v
  /\ (Output.eqb (Value.to_Output v) (Value.to_Output w) = true
      <-> Value.node v = Value.node w /\ Value.index v = Value.index w).
Proof.
  apply Output_eqb_leibniz in Hab. apply Output_eqb_leibniz in Hbc.
  subst b c.
  assert (Hrefl : Output.eqb a a = true)
    by (apply Output_eqb_leibniz; reflexivity).
  split; [exact Hrefl|]. split; [exact Hrefl|]. split; [exact Hrefl|].
  split; [reflexivity|]. split; [reflexivity|].
  rewrite Output_eqb_eq. reflexivity.
Qed.

(** X14 at two values on the node at address [4096], index [1]. *)
Lemma Output_eq_equivalence_witness :
  Output.eqb (Value.to_Output (Value.mk 4096 1))
             (Value.to_Output (Value.mk 4096 1)) = true.
Proof.
  destruct (Output_eq_equivalence Output.default Output.default
              Output.default (Value.mk 4096 1) (Value.mk 4096 1)
              eq_refl eq_refl) as (_ & _ & _ & _ & _ & Hiff).
  apply Hiff. split; reflexivity.
Defined.

(** ** The user-metadata slot, twice *)

(** X15: handing the pointer that [SetUserMetadata] returned back to
    [SetUserMetadata] puts the node back as it was and returns the
    pointer set in between; and of two calls in a row the second returns
    the argument of the first and only its own argument stays. *)
Theorem SetUserMetadata_round_trip {MetaData : Type}
    (n : Node.t MetaData) (m m' : Z) :
  let first := Node.SetUserMetadata n m in
  Node.SetUserMetadata (fst first) (snd first) = (n, m)
  /\ snd (Node.SetUserMetadata (fst first) m') = m
  /\ fst (Node.SetUserMetadata (fst first) m')
     = fst (Node.SetUserMetadata n m').
Proof.
  destruct n. cbv zeta. repeat split.
Qed.
